(** * yt_eda: the two visualizer facades of [yt_eda/visualization.py]

    Every method of the source is a short sequence of calls into pandas,
    matplotlib, seaborn and scikit-learn.  The embedding keeps that
    shape: a method is a computation in a state-and-exception monad
    whose state holds the heap of [DataFrame] objects, the list of
    rendering calls issued so far, and the random state consumed by the
    tree ensemble.  The library calls are modelled with the defaults the
    source leaves in place ([groupby] drops rows whose key is missing,
    [corr] is Pearson over the numeric columns, [sort_values] puts NaN
    last, [drop] returns a new object).  The two floating-point kernels
    the source never looks inside, the correlation of two columns and
    the fitting of the forest, are fields of the [Backend] interface.
    Column labels of a frame are taken to be distinct where a statement
    says so ([NoDup (columns df)]). *)

From Stdlib Require Import QArith Qcanon.
From stdpp Require Import sorting numbers strings gmap list.

(** ** Data model *)

(** The element types a pandas column can have. *)
Inductive dtype :=
| int8 | int16 | int32 | int64
| uint8 | uint16 | uint32 | uint64
| float16 | float32 | float64
| bool_ | object_ | category | datetime64.

#[global] Instance dtype_eq_dec : EqDecision dtype.
Proof. solve_decision. Defined.

(** A value stored in a cell; a finite float is a rational in lowest
    terms. *)
Inductive scalar :=
| SInt (z : Z)
| SFloat (q : Qc)
| SStr (s : string)
| SBool (b : bool).

#[global] Instance scalar_eq_dec : EqDecision scalar.
Proof. solve_decision. Defined.

(** [None] is a missing value (NaN, None, NaT). *)
Definition cell : Type := option scalar.

(** A column: its label, its element type and its values, one per row. *)
Record Series := mkSeries {
  name : string;
  s_dtype : dtype;
  values : list cell
}.

(** A frame is the list of its columns, in column order. *)
Definition DataFrame : Type := list Series.

Definition columns (df : DataFrame) : list string := name <$> df.

(** [len(df)]: the number of rows. *)
Definition nrows (df : DataFrame) : nat :=
  match df with
  | [] => 0
  | c :: _ => length (values c)
  end.

(** Every column has one value per row. *)
Definition rectangular (df : DataFrame) : Prop :=
  Forall (λ c, length (values c) = nrows df) df.

(** A float result of a library routine: [None] is NaN. *)
Abbreviation float := (option Q).

(** A series of floats indexed by column labels, as [corr()[target]]. *)
Abbreviation FloatSeries := (list (string * float)).

(** The frame returned by [corr()]: for each column label, the series of
    its correlations with every row label. *)
Abbreviation CorrMatrix := (list (string * FloatSeries)).

(** The result of [groupby([a, b]).size()]: one count per observed pair
    of keys. *)
Abbreviation SizeSeries := (list ((scalar * scalar) * nat)).

(** The result of [unstack()]: first keys label the rows, second keys the
    columns; a cell is [None] (NaN) where the pair was never observed. *)
Record CountTable := mkCountTable {
  row_labels : list scalar;
  col_labels : list scalar;
  cells : list (list (option nat))
}.

(** ** Exceptions, rendering calls, and the state *)

Inductive exn :=
| KeyError (k : string)
| ValueError (msg : string)
| TypeError (msg : string)
| IndexError (i : nat).

Definition result (A : Type) : Type := exn + A.

(** The calls into matplotlib, seaborn and scikit-learn, with their
    arguments. *)
Inductive event :=
| plt_figure (w h : nat)
| plt_title (t : string)
| plt_xticks (rotation : nat)
| plt_xlabel (t : string)
| plt_show
| plt_barh (labels : list string) (widths : list Q)
| sns_histplot (s : Series) (kde : bool)
| sns_countplot (data : DataFrame) (x : string)
| sns_heatmap (m : CorrMatrix) (annot : bool) (cmap : string) (center : Z)
| sns_barplot (s : FloatSeries)
| sns_scatterplot (data : DataFrame) (x y : string)
| df_plot_bar (t : CountTable) (w h : nat)
| rf_fit (n_estimators : nat) (X : DataFrame) (y : Series).

Definition loc : Type := positive.

Record world := mkWorld {
  heap : gmap loc DataFrame;
  trace : list event;
  rng : N
}.

(** The two numeric kernels of the libraries. *)
Class Backend := {
  (** Pearson correlation of two columns, as pandas computes it. *)
  pearson : Series → Series → float;
  (** [RandomForestRegressor(n_estimators=n).fit(X, y)] followed by
      [feature_importances_], from a random state to the next. *)
  forest_importances : nat → DataFrame → Series → N → result (list Q) * N
}.

(** ** The monad *)

Definition M (A : Type) : Type := world → world * result A.

Definition ret {A} (x : A) : M A := λ w, (w, inr x).

Definition bind {A B} (m : M A) (k : A → M B) : M B :=
  λ w, match m w with
       | (w', inr x) => k x w'
       | (w', inl e) => (w', inl e)
       end.

Notation "x <- m ;; k" := (bind m (λ x, k))
  (at level 100, m at next level, right associativity).
Notation "m ;;; k" := (bind m (λ _, k))
  (at level 100, right associativity).

Definition raise {A} (e : exn) : M A := λ w, (w, inl e).

Definition lift {A} (r : result A) : M A := λ w, (w, r).

Definition emit (e : event) : M unit :=
  λ w, (mkWorld (heap w) (trace w ++ [e]) (rng w), inr tt).

(** Reading through a reference to a frame. *)
Definition deref (l : loc) : M DataFrame := λ w, (w, inr (heap w !!! l)).

(** A library call that returns a new frame object. *)
Definition alloc (df : DataFrame) : M loc :=
  λ w, let l := fresh (dom (heap w)) in
       (mkWorld (<[l := df]> (heap w)) (trace w) (rng w), inr l).

(** [for x in l: body]. *)
Fixpoint for_each {A} (l : list A) (body : A → M unit) : M unit :=
  match l with
  | [] => ret tt
  | x :: l' => body x ;;; for_each l' body
  end.

(** ** pandas *)

(** [df[k]]. *)
Definition getitem (df : DataFrame) (k : string) : result Series :=
  match list_find (λ c, name c = k) df with
  | Some (_, c) => inr c
  | None => inl (KeyError k)
  end.

(** [df.select_dtypes(include=...)]: the columns whose element type is
    one of the listed ones, as a new frame. *)
Definition select_dtypes (include : list dtype) (l : loc) : M loc :=
  df <- deref l ;;
  alloc (filter (λ c, s_dtype c ∈ include) df).

(** [df.drop(k, axis=1)]: a new frame without the columns labelled [k]. *)
Definition drop (k : string) (l : loc) : M loc :=
  df <- deref l ;;
  if decide (k ∈ columns df)
  then alloc (filter (λ c, name c ≠ k) df)
  else raise (KeyError k).

(** Counting one more row under the key [k]. *)
Fixpoint bump (k : scalar * scalar) (s : SizeSeries) : SizeSeries :=
  match s with
  | [] => [(k, 1)]
  | (k', n) :: s' => if decide (k' = k) then (k', S n) :: s' else (k', n) :: bump k s'
  end.

(** The rows of the two key columns that take part in the grouping: a
    row with a missing key is left out ([dropna=True]). *)
Definition group_keys (ca cb : Series) : list (scalar * scalar) :=
  omap (λ r, match r with
             | (Some a, Some b) => Some (a, b)
             | _ => None
             end) (zip (values ca) (values cb)).

(** [df.groupby([a, b]).size()]. *)
Definition groupby_size (df : DataFrame) (a b : string) : result SizeSeries :=
  match getitem df a with
  | inl e => inl e
  | inr ca =>
      match getitem df b with
      | inl e => inl e
      | inr cb => inr (foldl (λ s k, bump k s) [] (group_keys ca cb))
      end
  end.

Definition size_at (s : SizeSeries) (k : scalar * scalar) : option nat :=
  (λ e, snd (snd e)) <$> list_find (λ e, fst e = k) s.

(** [s.unstack()]: the last key level becomes the columns. *)
Definition unstack (s : SizeSeries) : CountTable :=
  let rs := remove_dups (fst ∘ fst <$> s) in
  let cs := remove_dups (snd ∘ fst <$> s) in
  mkCountTable rs cs ((λ r, (λ c, size_at s (r, c)) <$> cs) <$> rs).

(** The sum of the counts of a table, NaN cells skipped. *)
Definition table_total (t : CountTable) : nat :=
  sum_list ((λ row, sum_list (default 0 <$> row)) <$> cells t).

(** The element types [corr] keeps. *)
Definition is_numeric (d : dtype) : bool :=
  match d with
  | object_ | category | datetime64 => false
  | _ => true
  end.

Definition numeric_columns (df : DataFrame) : DataFrame :=
  filter (λ c, is_numeric (s_dtype c) = true) df.

(** [df.corr()]. *)
Definition corr `{Backend} (df : DataFrame) : CorrMatrix :=
  let num := numeric_columns df in
  (λ cj, (name cj, (λ ci, (name ci, pearson ci cj)) <$> num)) <$> num.

(** [m[k]] on the correlation matrix. *)
Definition corr_getitem (m : CorrMatrix) (k : string) : result FloatSeries :=
  match list_find (λ e, fst e = k) m with
  | Some (_, e) => inr (snd e)
  | None => inl (KeyError k)
  end.

(** Descending order on the entries that are not NaN. *)
Definition desc (a b : string * Q) : Prop := Is_true (Qle_bool (snd b) (snd a)).

(** Ascending order on indexed values. *)
Definition asc (a b : nat * Q) : Prop := Is_true (Qle_bool (snd a) (snd b)).

#[global] Instance desc_dec a b : Decision (desc a b).
Proof. unfold desc. apply _. Defined.

#[global] Instance asc_dec a b : Decision (asc a b).
Proof. unfold asc. apply _. Defined.

Definition not_nan (s : FloatSeries) : list (string * Q) :=
  omap (λ e, (λ q, (fst e, q)) <$> snd e) s.

Definition nan_entries (s : FloatSeries) : FloatSeries :=
  filter (λ e, snd e = None) s.

(** [s.sort_values(ascending=False)]: NaN entries go last. *)
Definition sort_values_desc (s : FloatSeries) : FloatSeries :=
  ((λ e, (fst e, Some (snd e))) <$> merge_sort desc (not_nan s)) ++ nan_entries s.

(** [a.argsort()]. *)
Definition argsort (a : list Q) : list nat :=
  fst <$> merge_sort asc (imap (λ i q, (i, q)) a).

(** [a[idx]] for a list of positions. *)
Fixpoint take_idx {A} (a : list A) (idx : list nat) : result (list A) :=
  match idx with
  | [] => inr []
  | i :: idx' =>
      match a !! i with
      | None => inl (IndexError i)
      | Some x =>
          match take_idx a idx' with
          | inl e => inl e
          | inr xs => inr (x :: xs)
          end
      end
  end.

(** [t.plot(kind='bar', figsize=(w, h))]. *)
Definition plot_bar (t : CountTable) (w h : nat) : M unit :=
  match row_labels t, col_labels t with
  | [], _ | _, [] => raise (TypeError "no numeric data to plot")
  | _, _ => emit (df_plot_bar t w h)
  end.

(** ** seaborn and scikit-learn *)

Definition could_not_interpret (k : string) : exn :=
  ValueError ("Could not interpret value `" +:+ k +:+ "`").

Definition countplot (data : DataFrame) (x : string) : M unit :=
  if decide (x ∈ columns data) then emit (sns_countplot data x)
  else raise (could_not_interpret x).

Definition scatterplot (data : DataFrame) (x y : string) : M unit :=
  if decide (x ∈ columns data) then
    if decide (y ∈ columns data) then emit (sns_scatterplot data x y)
    else raise (could_not_interpret y)
  else raise (could_not_interpret x).

(** [RandomForestRegressor(n_estimators=n)], [fit(X, y)] and the read of
    [feature_importances_]. *)
Definition fit_importances `{Backend} (n : nat) (X : DataFrame) (y : Series) : M (list Q) :=
  λ w, let '(r, g) := forest_importances n X y (rng w) in
       (mkWorld (heap w) (trace w ++ [rf_fit n X y]) g, r).

(** ** The two classes *)

Module PreprocessVisualizer.

(** The object holds a reference to the caller's frame. *)
Record t := mk { data : loc }.

Definition __init__ (data : loc) : t := mk data.

Definition plot_numeric_distribution (self : t) : M unit :=
  sel <- select_dtypes [int64; float64] (data self) ;;
  numeric_cols <- deref sel ;;
  for_each (columns numeric_cols) (λ col,
    emit (plt_figure 12 6) ;;;
    df <- deref (data self) ;;
    s <- lift (getitem df col) ;;
    emit (sns_histplot s true) ;;;
    emit (plt_title ("Distribution of " +:+ col)) ;;;
    emit plt_show).

Definition plot_categorical_distribution (self : t) : M unit :=
  sel <- select_dtypes [object_] (data self) ;;
  cat_cols <- deref sel ;;
  for_each (columns cat_cols) (λ col,
    emit (plt_figure 12 6) ;;;
    df <- deref (data self) ;;
    countplot df col ;;;
    emit (plt_title ("Distribution of " +:+ col)) ;;;
    emit (plt_xticks 45) ;;;
    emit plt_show).

Definition plot_channel_category_counts (self : t) (group_first group_second : string) : M unit :=
  df <- deref (data self) ;;
  sizes <- lift (groupby_size df group_first group_second) ;;
  let grouped := unstack sizes in
  plot_bar grouped 15 7 ;;;
  emit (plt_title ("Distribution of " +:+ group_second +:+ " by " +:+ group_first)) ;;;
  emit (plt_xticks 45) ;;;
  emit plt_show.

Section WithBackend.
Context `{Backend}.

Definition plot_heatmap (self : t) : M unit :=
  emit (plt_figure 12 12) ;;;
  df <- deref (data self) ;;
  emit (sns_heatmap (corr df) true "coolwarm" 0) ;;;
  emit (plt_title "Correlation Heatmap") ;;;
  emit plt_show.

End WithBackend.

End PreprocessVisualizer.

Module PostprocessVisualizer.

Record t := mk { data : loc }.

Definition __init__ (data : loc) : t := mk data.

Definition plot_scatterplots (self : t) (target : string) : M unit :=
  df <- deref (data self) ;;
  let features := filter (λ col, col ≠ target) (columns df) in
  for_each features (λ feature,
    emit (plt_figure 10 6) ;;;
    df <- deref (data self) ;;
    scatterplot df feature target ;;;
    emit (plt_title (feature +:+ " vs. " +:+ target)) ;;;
    emit plt_show).

Section WithBackend.
Context `{Backend}.

Definition plot_heatmap (self : t) : M unit :=
  emit (plt_figure 12 12) ;;;
  df <- deref (data self) ;;
  emit (sns_heatmap (corr df) true "coolwarm" 0) ;;;
  emit (plt_title "Correlation Heatmap") ;;;
  emit plt_show.

Definition plot_correlation_analysis (self : t) (target : string) : M unit :=
  df <- deref (data self) ;;
  col <- lift (corr_getitem (corr df) target) ;;
  let correlations := sort_values_desc col in
  emit (plt_figure 15 6) ;;;
  emit (sns_barplot correlations) ;;;
  emit (plt_title ("Correlation with " +:+ target)) ;;;
  emit (plt_xticks 45) ;;;
  emit plt_show.

Definition plot_feature_importance (self : t) (target : string) : M unit :=
  xl <- drop target (data self) ;;
  X <- deref xl ;;
  df <- deref (data self) ;;
  y <- lift (getitem df target) ;;
  importances <- fit_importances 100 X y ;;
  let sorted_idx := argsort importances in
  emit (plt_figure 15 12) ;;;
  labels <- lift (take_idx (columns X) sorted_idx) ;;
  widths <- lift (take_idx importances sorted_idx) ;;
  emit (plt_barh labels widths) ;;;
  emit (plt_xlabel "Feature Importance") ;;;
  emit plt_show.

End WithBackend.

End PostprocessVisualizer.

(** A world in which [l] refers to [df] and nothing has been rendered. *)
Definition world_with (l : loc) (df : DataFrame) : world :=
  mkWorld {[ l := df ]} [] 0.

(** The number of rows of [df] whose keys under [a] and [b] are both
    present. *)
Definition keyed_rows (df : DataFrame) (a b : string) : nat :=
  match getitem df a, getitem df b with
  | inr ca, inr cb => length (group_keys ca cb)
  | _, _ => 0
  end.

(** The sum of the counts of a size series. *)
Definition sum_counts (s : SizeSeries) : nat := sum_list_with snd s.


(** The world after some more rendering calls. *)
Definition rendering (w : world) (evs : list event) : world :=
  mkWorld (heap w) (trace w ++ evs) (rng w).

(** A frame whose second grouping column has a missing value. *)
Definition df_missing_key : DataFrame :=
  [ mkSeries "channel_type" object_ [Some (SStr "Music"); Some (SStr "Games")];
    mkSeries "category" object_ [Some (SStr "Entertainment"); None] ].

(** The calls of one iteration of each per-column loop. *)
Definition hist_chart (c : Series) : list event :=
  [plt_figure 12 6; sns_histplot c true;
   plt_title ("Distribution of " +:+ name c); plt_show].

Definition count_chart (df : DataFrame) (c : Series) : list event :=
  [plt_figure 12 6; sns_countplot df (name c);
   plt_title ("Distribution of " +:+ name c); plt_xticks 45; plt_show].



(** The world after a library call has returned the new frame [df]. *)
Definition allocated (w : world) (df : DataFrame) : world :=
  mkWorld (<[fresh (dom (heap w)) := df]> (heap w)) (trace w) (rng w).

(** A computation leaves every frame object that exists as it is. *)
Definition preserves {A} (m : M A) : Prop :=
  ∀ w, heap w ⊆ heap (fst (m w)).

(** A frame whose numeric columns are 32 bits wide. *)
Definition df_narrow : DataFrame :=
  [ mkSeries "views" int32 [Some (SInt 10); Some (SInt 20)];
    mkSeries "rating" float32 [Some (SFloat (Q2Qc (9 # 2))); None] ].

(** A frame with numeric columns A and B and a categorical column C. *)
Definition df_abc : DataFrame :=
  [ mkSeries "A" int64 [Some (SInt 1); Some (SInt 2)];
    mkSeries "B" float64 [Some (SFloat (Q2Qc (1 # 2))); None];
    mkSeries "C" object_ [Some (SStr "x"); Some (SStr "y")] ].



Definition importance_chart (X : DataFrame) (y : Series)
    (labels : list string) (widths : list Q) : list event :=
  [rf_fit 100 X y; plt_figure 15 12; plt_barh labels widths;
   plt_xlabel "Feature Importance"; plt_show].

(** The number of forests fitted in a trace. *)
Definition is_fit (e : event) : bool :=
  match e with
  | rf_fit _ _ _ => true
  | _ => false
  end.

Definition fits (tr : list event) : nat :=
  length (filter (λ e, is_fit e = true) tr).

(** A backend for the examples: columns correlate with themselves only,
    and every feature gets the score one half. *)
Definition example_backend : Backend :=
  {| pearson := λ a b, if decide (name a = name b) then Some 1%Q else None;
     forest_importances := λ _ X _ g, (inr ((λ _, (1 # 2)%Q) <$> X), N.succ g) |}.

(** The number of rows of a key list that carry the key pair [k]. *)
Definition key_count (k : scalar * scalar) (ks : list (scalar * scalar)) : nat :=
  length (filter (λ k', k' = k) ks).

(** What the cell of the pivot holds for a pair seen [n] times. *)
Definition count_cell (n : nat) : option nat :=
  match n with
  | 0 => None
  | S _ => Some n
  end.

(** The cell of a count table at row position [i] and column position
    [j]. *)
Definition cell_at (t : CountTable) (i j : nat) : option (option nat) :=
  cells t !! i ≫= λ row, row !! j.



(** A computation fits no forest and leaves the random state alone. *)
Definition no_fit {A} (m : M A) : Prop :=
  ∀ w, rng (fst (m w)) = rng w ∧ fits (trace (fst (m w))) = fits (trace w).

(** A backend whose forest rejects every input. *)
Definition failing_backend : Backend :=
  {| pearson := λ _ _, None;
     forest_importances := λ _ _ _ g,
       (inl (ValueError "could not convert string to float"), N.succ g) |}.

(** A computation fits at most [n] forests. *)
Definition fits_at_most {A} (n : nat) (m : M A) : Prop :=
  ∀ w, fits (trace (fst (m w))) ≤ fits (trace w) + n.

(** * Properties *)

(** ** Sums and lookups *)

Lemma sum_list_fmap_with {A} (f : A → nat) (l : list A) :
  sum_list (f <$> l) = sum_list_with f l.
Proof.
  induction l as [|x l IH]; [done|].
  rewrite fmap_cons. simpl. by rewrite IH.
Qed.

Lemma sum_list_with_ext {A} (f g : A → nat) (l : list A) :
  (∀ x, f x = g x) → sum_list_with f l = sum_list_with g l.
Proof. intros E. induction l as [|x l IH]; simpl; [done | by rewrite E, IH]. Qed.

Lemma sum_list_with_plus {A} (f g : A → nat) (l : list A) :
  sum_list_with (λ x, f x + g x) l = sum_list_with f l + sum_list_with g l.
Proof. induction l as [|x l IH]; simpl; [done | rewrite IH; lia]. Qed.

Lemma sum_list_with_miss `{EqDecision A} (x0 : A) (f : A → nat) (l : list A) :
  x0 ∉ l → sum_list_with (λ x, if decide (x0 = x) then f x else 0) l = 0.
Proof.
  induction l as [|y l IH]; simpl; [done|].
  rewrite not_elem_of_cons. intros [Hne Hl].
  rewrite decide_False by done. by rewrite IH.
Qed.

Lemma sum_list_with_pick `{EqDecision A} (x0 : A) (f : A → nat) (l : list A) :
  NoDup l → x0 ∈ l →
  sum_list_with (λ x, if decide (x0 = x) then f x else 0) l = f x0.
Proof.
  induction 1 as [|y l Hy Hl IH]; simpl.
  - by rewrite elem_of_nil.
  - rewrite elem_of_cons. intros [->|Hin].
    + rewrite decide_True by done. rewrite sum_list_with_miss by done. lia.
    + rewrite decide_False by (intros ->; done). by rewrite IH.
Qed.

(** ** The count table *)

Lemma bump_sum k s : sum_counts (bump k s) = S (sum_counts s).
Proof.
  unfold sum_counts. induction s as [|[k' n] s IH]; simpl; [done|].
  case_decide; simpl; [lia | rewrite IH; lia].
Qed.

Lemma bump_keys k s x : x ∈ (fst <$> bump k s) ↔ x = k ∨ x ∈ (fst <$> s).
Proof.
  induction s as [|[k' n] s IH]; csimpl.
  - rewrite list_elem_of_singleton, elem_of_nil. tauto.
  - case_decide; csimpl; rewrite !elem_of_cons.
    + subst k'. tauto.
    + rewrite IH. tauto.
Qed.

Lemma bump_NoDup k s : NoDup (fst <$> s) → NoDup (fst <$> bump k s).
Proof.
  induction s as [|[k' n] s IH]; csimpl.
  - intros _. apply NoDup_singleton.
  - intros Hs. apply NoDup_cons in Hs as [Hk' Hs]. case_decide; csimpl.
    + by apply NoDup_cons.
    + apply NoDup_cons. split; [|by apply IH].
      rewrite bump_keys. intros [->|?]; done.
Qed.

Lemma count_rows_sum ks s :
  sum_counts (foldl (λ s k, bump k s) s ks) = length ks + sum_counts s.
Proof.
  revert s. induction ks as [|k ks IH]; intros s; simpl; [done|].
  rewrite IH, bump_sum. lia.
Qed.

Lemma count_rows_NoDup ks s :
  NoDup (fst <$> s) → NoDup (fst <$> foldl (λ s k, bump k s) s ks).
Proof.
  revert s. induction ks as [|k ks IH]; intros s Hs; simpl; [done|].
  by apply IH, bump_NoDup.
Qed.

Lemma size_at_cons k n s p :
  default 0 (size_at ((k, n) :: s) p)
  = if decide (k = p) then n else default 0 (size_at s p).
Proof.
  unfold size_at. simpl. case_decide; simpl; [done|].
  by destruct (list_find _ s) as [[i e]|].
Qed.

Lemma size_at_absent s p : p ∉ (fst <$> s) → size_at s p = None.
Proof.
  intros Hp. unfold size_at.
  destruct (list_find _ s) as [[i e]|] eqn:E; [|done].
  apply list_find_Some in E as (Hi & He & _).
  destruct Hp. apply list_elem_of_fmap. exists e. split; [done|].
  by eapply list_elem_of_lookup_2.
Qed.

Lemma grid_pick (rs cs : list scalar) (k : scalar * scalar) (n : nat) :
  NoDup rs → NoDup cs → fst k ∈ rs → snd k ∈ cs →
  sum_list_with (λ r, sum_list_with (λ c, if decide (k = (r, c)) then n else 0) cs) rs = n.
Proof.
  destruct k as [r0 c0]. simpl. intros Hrs Hcs Hr Hc.
  rewrite (sum_list_with_ext _ (λ r, if decide (r0 = r) then n else 0)).
  - by rewrite (sum_list_with_pick r0 (λ _, n)).
  - intros r.
    rewrite (sum_list_with_ext _
      (λ c, if decide (c0 = c) then (if decide (r0 = r) then n else 0) else 0)).
    + by rewrite (sum_list_with_pick c0 (λ _, if decide (r0 = r) then n else 0)).
    + intros c. repeat case_decide; simplify_eq; done.
Qed.

Lemma grid_total (rs cs : list scalar) (s : SizeSeries) :
  NoDup rs → NoDup cs → NoDup (fst <$> s) →
  (∀ k, k ∈ (fst <$> s) → fst k ∈ rs ∧ snd k ∈ cs) →
  sum_list_with (λ r, sum_list_with (λ c, default 0 (size_at s (r, c))) cs) rs
  = sum_counts s.
Proof.
  intros Hrs Hcs. induction s as [|[k n] s IH]; intros Hs Hin.
  - unfold sum_counts. simpl.
    rewrite (sum_list_with_ext _ (λ _, 0)).
    + clear. induction rs; simpl; [done | by rewrite IHrs].
    + intros r. clear. induction cs; simpl; [done | by rewrite IHcs].
  - simpl in Hs. apply NoDup_cons in Hs as [Hk Hs].
    rewrite (sum_list_with_ext _
      (λ r, sum_list_with (λ c, if decide (k = (r, c)) then n else 0) cs
            + sum_list_with (λ c, default 0 (size_at s (r, c))) cs)).
    + rewrite sum_list_with_plus, IH.
      * rewrite grid_pick; [done..| |]; apply (Hin k); simpl; left.
      * done.
      * intros k' Hk'. apply Hin. simpl. by right.
    + intros r. rewrite <- sum_list_with_plus. apply sum_list_with_ext. intros c.
      rewrite size_at_cons. case_decide; [|done]. subst k.
      by rewrite size_at_absent.
Qed.

Lemma unstack_total (s : SizeSeries) :
  NoDup (fst <$> s) → table_total (unstack s) = sum_counts s.
Proof.
  intros Hs. unfold table_total, unstack. simpl.
  rewrite <- list_fmap_compose, sum_list_fmap_with.
  etrans; [|apply (grid_total (remove_dups (fst ∘ fst <$> s))
                              (remove_dups (snd ∘ fst <$> s)) s);
            auto using NoDup_remove_dups].
  - apply sum_list_with_ext. intros r. simpl.
    by rewrite <- list_fmap_compose, sum_list_fmap_with.
  - intros k Hk. rewrite !elem_of_remove_dups.
    apply list_elem_of_fmap in Hk as (e & -> & He).
    split; apply list_elem_of_fmap; exists e; done.
Qed.

Lemma getitem_present (df : DataFrame) (k : string) :
  k ∈ columns df → ∃ c, getitem df k = inr c ∧ c ∈ df ∧ name c = k.
Proof.
  intros Hk. unfold getitem.
  apply list_elem_of_fmap in Hk as (c & -> & Hc).
  destruct (list_find_elem_of (λ c', name c' = name c) df c Hc eq_refl) as [[i c'] E].
  rewrite E. exists c'. apply list_find_Some in E as (Hi & He & _).
  split; [done|]. split; [by eapply list_elem_of_lookup_2 | done].
Qed.

Lemma getitem_absent (df : DataFrame) (k : string) :
  k ∉ columns df → getitem df k = inl (KeyError k).
Proof.
  intros Hk. unfold getitem.
  destruct (list_find _ df) as [[i c]|] eqn:E; [|done].
  apply list_find_Some in E as (Hi & He & _). destruct Hk.
  apply list_elem_of_fmap. exists c. split; [done | by eapply list_elem_of_lookup_2].
Qed.

Lemma group_keys_full (ca cb : Series) (n : nat) :
  length (values ca) = n → length (values cb) = n →
  Forall is_Some (values ca) → Forall is_Some (values cb) →
  length (group_keys ca cb) = n.
Proof.
  unfold group_keys. generalize (values ca) (values cb). clear.
  intros la. revert n. induction la as [|a la IH]; intros n lb Ha Hb Fa Fb.
  - simpl in *. by subst.
  - destruct lb as [|b lb]; simpl in *; [by subst|].
    apply Forall_cons in Fa as [[x ->] Fa]. apply Forall_cons in Fb as [[y ->] Fb].
    simpl. destruct n as [|n]; [done|]. f_equal. apply IH; auto.
Qed.

Lemma remove_dups_nonempty `{EqDecision A} (l : list A) :
  l ≠ [] → remove_dups l ≠ [].
Proof.
  destruct l as [|x l]; [done|]. intros _ E.
  assert (x ∈ remove_dups (x :: l)) as Hx by (apply elem_of_remove_dups; left).
  rewrite E in Hx. by apply elem_of_nil in Hx.
Qed.

(** ** Running the monad *)





Ltac run :=
  unfold bind, emit, deref, lift, ret, raise, alloc, rendering; simpl.

(** ** Two-way grouping *)

Lemma groupby_size_present (df : DataFrame) (a b : string) :
  a ∈ columns df → b ∈ columns df →
  ∃ s, groupby_size df a b = inr s
       ∧ NoDup (fst <$> s)
       ∧ sum_counts s = keyed_rows df a b.
Proof.
  intros Ha Hb. unfold groupby_size, keyed_rows.
  destruct (getitem_present df a Ha) as (ca & -> & _).
  destruct (getitem_present df b Hb) as (cb & -> & _).
  eexists. split; [done|]. split.
  - apply count_rows_NoDup. constructor.
  - rewrite count_rows_sum. unfold sum_counts. simpl. lia.
Qed.

Lemma keyed_rows_full (df : DataFrame) (a b : string) :
  a ∈ columns df → b ∈ columns df → rectangular df →
  (∀ c, c ∈ df → name c = a ∨ name c = b → Forall is_Some (values c)) →
  keyed_rows df a b = nrows df.
Proof.
  intros Ha Hb Hrect Hfull. unfold keyed_rows.
  destruct (getitem_present df a Ha) as (ca & -> & Hca & Ea).
  destruct (getitem_present df b Hb) as (cb & -> & Hcb & Eb).
  unfold rectangular in Hrect. rewrite Forall_forall in Hrect.
  apply group_keys_full; auto.
Qed.

Lemma plot_bar_nonempty (s : SizeSeries) (wd ht : nat) (w : world) :
  s ≠ [] →
  plot_bar (unstack s) wd ht w = (rendering w [df_plot_bar (unstack s) wd ht], inr tt).
Proof.
  intros Hs. unfold plot_bar.
  assert (row_labels (unstack s) ≠ []) as Hr.
  { simpl. apply remove_dups_nonempty. by destruct s. }
  assert (col_labels (unstack s) ≠ []) as Hc.
  { simpl. apply remove_dups_nonempty. by destruct s. }
  destruct (row_labels (unstack s)); [done|].
  destruct (col_labels (unstack s)); [done|]. done.
Qed.

(** C1, as amended: when both grouping names are columns of the frame,
    the table that [plot_channel_category_counts] builds by grouping on
    the pair, counting, and pivoting the second key into columns has a
    total equal to the number of rows whose two keys are both present;
    that is the row count of the frame when neither grouping column has
    a missing value.  A non-empty table is what the bar chart is drawn
    from. *)
Theorem count_table_total_keyed_rows
    (w : world) (self : PreprocessVisualizer.t) (df : DataFrame) (a b : string) :
  heap w !! PreprocessVisualizer.data self = Some df →
  a ∈ columns df → b ∈ columns df →
  ∃ s, groupby_size df a b = inr s
     ∧ table_total (unstack s) = keyed_rows df a b
     ∧ (rectangular df →
        (∀ c, c ∈ df → name c = a ∨ name c = b → Forall is_Some (values c)) →
        table_total (unstack s) = nrows df)
     ∧ (s ≠ [] →
        PreprocessVisualizer.plot_channel_category_counts self a b w
        = (rendering w [df_plot_bar (unstack s) 15 7;
                        plt_title ("Distribution of " +:+ b +:+ " by " +:+ a);
                        plt_xticks 45; plt_show], inr tt)).
Proof.
  intros Hdf Ha Hb.
  destruct (groupby_size_present df a b Ha Hb) as (s & Es & Hnd & Hsum).
  exists s. split; [done|].
  assert (table_total (unstack s) = keyed_rows df a b) as Htot.
  { by rewrite unstack_total. }
  split; [done|]. split.
  - intros Hrect Hfull. rewrite Htot. by apply keyed_rows_full.
  - intros Hs. unfold PreprocessVisualizer.plot_channel_category_counts.
    unfold bind at 1. unfold deref. rewrite (lookup_total_correct _ _ _ Hdf).
    unfold bind at 1. unfold lift. rewrite Es.
    unfold bind at 1. rewrite plot_bar_nonempty by done.
    run. by rewrite <- !app_assoc.
Qed.

Lemma count_table_total_keyed_rows_witness :
  ∃ s, groupby_size df_missing_key "channel_type" "category" = inr s
     ∧ table_total (unstack s) = 1
     ∧ PreprocessVisualizer.plot_channel_category_counts
         (PreprocessVisualizer.mk 1%positive) "channel_type" "category"
         (world_with 1%positive df_missing_key)
       = (rendering (world_with 1%positive df_missing_key)
            [df_plot_bar (unstack s) 15 7;
             plt_title "Distribution of category by channel_type";
             plt_xticks 45; plt_show], inr tt).
Proof.
  destruct (count_table_total_keyed_rows (world_with 1%positive df_missing_key)
              (PreprocessVisualizer.mk 1%positive) df_missing_key
              "channel_type" "category")
    as (s & Es & Htot & _ & Hrun).
  - reflexivity.
  - apply list_elem_of_In. simpl. auto.
  - apply list_elem_of_In. simpl. auto.
  - exists s. split; [exact Es|]. split; [exact Htot|].
    apply Hrun. intros ->. discriminate Es.
Defined.

(** C1, as stated, fails: a row whose grouping key is missing is counted
    in no group, so the total of the table falls short of the row
    count. *)
Lemma count_table_total_not_row_count :
  ¬ (∀ (df : DataFrame) (a b : string) (s : SizeSeries),
       a ∈ columns df → b ∈ columns df → rectangular df →
       groupby_size df a b = inr s →
       table_total (unstack s) = nrows df).
Proof.
  intros H.
  assert ("channel_type" ∈ columns df_missing_key) as Ha
    by (apply list_elem_of_In; simpl; auto).
  assert ("category" ∈ columns df_missing_key) as Hb
    by (apply list_elem_of_In; simpl; auto).
  assert (rectangular df_missing_key) as Hr by (repeat constructor).
  pose proof (H df_missing_key "channel_type" "category"
                [((SStr "Music", SStr "Entertainment"), 1)] Ha Hb Hr eq_refl) as E.
  vm_compute in E. discriminate.
Qed.

(** ** Per-feature scatter view *)





(** ** Correlation matrix lookups *)

Section Correlation.
Context `{Backend}.




(** ** Absent column names *)


End Correlation.



(** ** The two heatmaps *)


(** ** Distribution views *)


Lemma fresh_not_self (w : world) (l : loc) (df : DataFrame) :
  heap w !! l = Some df → fresh (dom (heap w)) ≠ l.
Proof.
  intros Hl E. apply (is_fresh (dom (heap w))). rewrite E.
  by eapply elem_of_dom_2.
Qed.



(** On a frame with [int64] column A, [float64] column B and [object]
    column C the numeric view draws A and B and the categorical view
    draws C. *)
Lemma distribution_views_abc :
  trace (fst (PreprocessVisualizer.plot_numeric_distribution
                (PreprocessVisualizer.mk 1%positive) (world_with 1%positive df_abc)))
  = concat (hist_chart <$> firstn 2 df_abc)
  ∧ trace (fst (PreprocessVisualizer.plot_categorical_distribution
                  (PreprocessVisualizer.mk 1%positive) (world_with 1%positive df_abc)))
    = concat (count_chart df_abc <$> skipn 2 df_abc).
Proof. split; reflexivity. Qed.

(** C4 at a frame whose integer column is [int32] and whose float column
    is [float32]: the numeric distribution view selects neither column
    and returns without drawing anything. *)
Theorem numeric_distribution_skips_narrow_columns :
  trace (fst (PreprocessVisualizer.plot_numeric_distribution
                (PreprocessVisualizer.mk 1%positive) (world_with 1%positive df_narrow)))
  = []
  ∧ snd (PreprocessVisualizer.plot_numeric_distribution
           (PreprocessVisualizer.mk 1%positive) (world_with 1%positive df_narrow))
    = inr tt.
Proof. split; reflexivity. Qed.

(** ** The stored frame is never written *)

Lemma preserves_ret {A} (x : A) : preserves (ret x).
Proof. intros w. done. Qed.

Lemma preserves_raise {A} (e : exn) : preserves (@raise A e).
Proof. intros w. done. Qed.

Lemma preserves_lift {A} (r : result A) : preserves (lift r).
Proof. intros w. done. Qed.

Lemma preserves_emit (e : event) : preserves (emit e).
Proof. intros w. done. Qed.

Lemma preserves_deref (l : loc) : preserves (deref l).
Proof. intros w. done. Qed.

Lemma preserves_alloc (df : DataFrame) : preserves (alloc df).
Proof.
  intros w. simpl. apply insert_subseteq, not_elem_of_dom, is_fresh.
Qed.

Lemma preserves_bind {A B} (m : M A) (k : A → M B) :
  preserves m → (∀ x, preserves (k x)) → preserves (bind m k).
Proof.
  intros Hm Hk w. unfold bind. specialize (Hm w).
  destruct (m w) as [w' [e|x]]; simpl in *; [done|].
  etrans; [exact Hm | apply Hk].
Qed.

Lemma preserves_for_each {A} (l : list A) (body : A → M unit) :
  (∀ x, preserves (body x)) → preserves (for_each l body).
Proof.
  intros Hbody. induction l as [|x l IH]; simpl.
  - apply preserves_ret.
  - apply preserves_bind; [apply Hbody | intros _; apply IH].
Qed.

Lemma preserves_select_dtypes (include : list dtype) (l : loc) :
  preserves (select_dtypes include l).
Proof.
  apply preserves_bind; [apply preserves_deref | intros df; apply preserves_alloc].
Qed.

Lemma preserves_drop (k : string) (l : loc) : preserves (drop k l).
Proof.
  apply preserves_bind; [apply preserves_deref | intros df].
  case_decide; [apply preserves_alloc | apply preserves_raise].
Qed.

Lemma preserves_plot_bar (t : CountTable) (wd ht : nat) : preserves (plot_bar t wd ht).
Proof.
  unfold plot_bar. destruct (row_labels t), (col_labels t);
    first [apply preserves_raise | apply preserves_emit].
Qed.

Lemma preserves_countplot (df : DataFrame) (x : string) : preserves (countplot df x).
Proof.
  unfold countplot. case_decide; [apply preserves_emit | apply preserves_raise].
Qed.

Lemma preserves_scatterplot (df : DataFrame) (x y : string) :
  preserves (scatterplot df x y).
Proof.
  unfold scatterplot. repeat case_decide;
    first [apply preserves_emit | apply preserves_raise].
Qed.

Lemma preserves_fit_importances `{Backend} (n : nat) (X : DataFrame) (y : Series) :
  preserves (fit_importances n X y).
Proof.
  intros w. unfold fit_importances.
  by destruct (forest_importances n X y (rng w)).
Qed.

Ltac frame :=
  repeat first
    [ apply preserves_emit | apply preserves_deref | apply preserves_lift
    | apply preserves_ret | apply preserves_select_dtypes | apply preserves_drop
    | apply preserves_plot_bar | apply preserves_countplot
    | apply preserves_scatterplot | apply preserves_fit_importances
    | apply preserves_for_each; intros ?
    | apply preserves_bind; [|intros ?] ].

Lemma preserves_lookup {A} (m : M A) (w : world) (l : loc) (df : DataFrame) :
  preserves m → heap w !! l = Some df → heap (fst (m w)) !! l = Some df.
Proof. intros Hm Hl. eapply lookup_weaken; [exact Hl | apply Hm]. Qed.

(** C7: the constructors only store the reference they are given, and
    after any of the eight operations the frame that reference leads to
    is what it was before the call; [plot_feature_importance] removes
    the target column in a new frame object. *)
Theorem dataset_never_mutated `{Backend}
    (w : world) (l : loc) (df : DataFrame) (a b target : string) :
  heap w !! l = Some df →
  let pre := PreprocessVisualizer.__init__ l in
  let post := PostprocessVisualizer.__init__ l in
  PreprocessVisualizer.data pre = l
  ∧ PostprocessVisualizer.data post = l
  ∧ heap (fst (PreprocessVisualizer.plot_numeric_distribution pre w)) !! l = Some df
  ∧ heap (fst (PreprocessVisualizer.plot_categorical_distribution pre w)) !! l = Some df
  ∧ heap (fst (PreprocessVisualizer.plot_channel_category_counts pre a b w)) !! l = Some df
  ∧ heap (fst (PreprocessVisualizer.plot_heatmap pre w)) !! l = Some df
  ∧ heap (fst (PostprocessVisualizer.plot_heatmap post w)) !! l = Some df
  ∧ heap (fst (PostprocessVisualizer.plot_correlation_analysis post target w)) !! l = Some df
  ∧ heap (fst (PostprocessVisualizer.plot_scatterplots post target w)) !! l = Some df
  ∧ heap (fst (PostprocessVisualizer.plot_feature_importance post target w)) !! l = Some df.
Proof.
  intros Hl pre post.
  repeat split; try reflexivity; apply preserves_lookup; try exact Hl.
  - unfold PreprocessVisualizer.plot_numeric_distribution. frame.
  - unfold PreprocessVisualizer.plot_categorical_distribution. frame.
  - unfold PreprocessVisualizer.plot_channel_category_counts. frame.
  - unfold PreprocessVisualizer.plot_heatmap. frame.
  - unfold PostprocessVisualizer.plot_heatmap. frame.
  - unfold PostprocessVisualizer.plot_correlation_analysis. frame.
  - unfold PostprocessVisualizer.plot_scatterplots. frame.
  - unfold PostprocessVisualizer.plot_feature_importance. frame.
Qed.

(** ** Sorting *)



Lemma asc_total : Total asc.
Proof.
  intros a b. unfold asc. rewrite !Is_true_true, !Qle_bool_iff.
  destruct (Qlt_le_dec (snd a) (snd b)) as [Hlt|Hle]; [left | right]; [|done].
  by apply Qlt_le_weak.
Qed.







(** ** Correlation-to-target ranking *)



(** ** Feature importance *)

Lemma take_idx_fmap {A E} (a : list A) (f : E → nat) (g : E → A) (l : list E) :
  (∀ e, e ∈ l → a !! f e = Some (g e)) →
  take_idx a (f <$> l) = inr (g <$> l).
Proof.
  induction l as [|e l IH]; intros Hl; csimpl; [done|].
  rewrite (Hl e) by left. rewrite IH; [done|].
  intros e' He'. apply Hl. by right.
Qed.

Lemma imap_zip_labels (cols : list string) (imp : list Q) :
  length imp = length cols →
  imap (λ i q, (default EmptyString (cols !! i), q)) imp = zip cols imp.
Proof.
  revert cols. induction imp as [|q imp IH]; intros [|c cols] Hlen;
    simplify_eq/=; [done|].
  f_equal. rewrite <- (IH cols) by done. by apply imap_ext.
Qed.

Lemma argsort_sorted (imp : list Q) :
  let sorted := merge_sort asc (imap (λ i q, (i, q)) imp) in
  argsort imp = fst <$> sorted
  ∧ sorted ≡ₚ imap (λ i q, (i, q)) imp
  ∧ Sorted Qle (snd <$> sorted)
  ∧ ∀ e, e ∈ sorted → imp !! fst e = Some (snd e).
Proof.
  intros sorted. split; [done|].
  assert (sorted ≡ₚ imap (λ i q, (i, q)) imp) as Hperm
    by apply merge_sort_Permutation.
  split; [done|]. split.
  - apply Sorted_fmap with (R1 := asc).
    + intros a b. unfold asc. by rewrite Is_true_true, Qle_bool_iff.
    + apply @Sorted_merge_sort. apply asc_total.
  - intros e He. rewrite Hperm in He.
    apply list_elem_of_lookup in He as [i Hi].
    rewrite list_lookup_imap in Hi.
    destruct (imp !! i) as [q|] eqn:E; simplify_eq/=. done.
Qed.

Lemma zip_fmap_same {A B C} (f : A → B) (g : A → C) (l : list A) :
  zip (f <$> l) (g <$> l) = (λ x, (f x, g x)) <$> l.
Proof. induction l as [|x l IH]; csimpl; [done | by rewrite IH]. Qed.

Lemma fits_app (tr1 tr2 : list event) : fits (tr1 ++ tr2) = fits tr1 + fits tr2.
Proof. unfold fits. by rewrite filter_app, length_app. Qed.

(** C5: [plot_feature_importance] hands the forest of 100 trees every
    column but the target, with all rows, as the feature matrix and the
    target column as the target vector; when the fit returns one score
    per feature, the bars it draws are the features with their scores,
    rearranged so that the scores are in ascending order.  Nothing is
    kept between calls: in whatever world the call is made, it fits a
    forest once more. *)
Theorem feature_importance_pipeline `{Backend}
    (w : world) (self : PostprocessVisualizer.t) (df : DataFrame)
    (target : string) (y : Series) (imp : list Q) (g : N) :
  heap w !! PostprocessVisualizer.data self = Some df →
  getitem df target = inr y →
  let X := filter (λ c, name c ≠ target) df in
  forest_importances 100 X y (rng w) = (inr imp, g) →
  length imp = length X →
  ∃ labels widths,
    PostprocessVisualizer.plot_feature_importance self target w
    = (mkWorld (heap (allocated w X))
         (trace w ++ importance_chart X y labels widths) g, inr tt)
    ∧ Sorted Qle widths
    ∧ zip labels widths ≡ₚ zip (columns X) imp
    ∧ fits (trace w ++ importance_chart X y labels widths) = S (fits (trace w)).
Proof.
  intros Hdf Hy X Hfit Hlen.
  assert (target ∈ columns df) as Ht.
  { destruct (decide (target ∈ columns df)) as [|Hn]; [done|].
    by rewrite (getitem_absent df target Hn) in Hy. }
  destruct (argsort_sorted imp) as (Harg & Hperm & Hsorted & Hlook).
  set (sorted := merge_sort asc (imap (λ i q, (i, q)) imp)) in *.
  set (label := λ e : nat * Q, default EmptyString (columns X !! fst e)).
  exists (label <$> sorted), (snd <$> sorted).
  split; [|split; [done|split]].
  - unfold PostprocessVisualizer.plot_feature_importance.
    unfold bind at 1. unfold drop. unfold bind at 1. unfold deref at 1.
    rewrite (lookup_total_correct _ _ _ Hdf).
    rewrite decide_True by done. unfold alloc. fold X. fold (allocated w X).
    unfold bind at 1. unfold deref at 1.
    replace (heap (allocated w X) !!! fresh (dom (heap w))) with X
      by (simpl; by rewrite lookup_total_insert_eq).
    unfold bind at 1. unfold deref at 1.
    replace (heap (allocated w X) !!! PostprocessVisualizer.data self) with df.
    2:{ simpl. rewrite lookup_total_insert_ne by (by eapply fresh_not_self).
        symmetry. by apply lookup_total_correct. }
    unfold bind at 1. unfold lift at 1. rewrite Hy.
    unfold bind at 1. unfold fit_importances.
    replace (rng (allocated w X)) with (rng w) by done. rewrite Hfit.
    unfold bind at 1. unfold emit at 1.
    rewrite Harg.
    rewrite (take_idx_fmap (columns X) fst label sorted).
    2:{ intros e He. unfold label.
        destruct (columns X !! fst e) as [c|] eqn:E; [done|].
        apply lookup_ge_None in E. apply Hlook, lookup_lt_Some in He.
        unfold columns in E. rewrite length_fmap in E. lia. }
    rewrite (take_idx_fmap imp fst snd sorted) by done.
    run. by rewrite <- !app_assoc.
  - rewrite zip_fmap_same, Hperm, fmap_imap.
    rewrite <- (imap_zip_labels (columns X) imp)
      by (unfold columns; by rewrite length_fmap).
    done.
  - rewrite fits_app.
    replace (fits (importance_chart X y (label <$> sorted) (snd <$> sorted)))
      with 1 by reflexivity.
    lia.
Qed.

Lemma feature_importance_pipeline_witness :
  ∃ labels widths,
    @PostprocessVisualizer.plot_feature_importance example_backend
      (PostprocessVisualizer.mk 1%positive) "A" (world_with 1%positive df_abc)
    = (mkWorld (heap (allocated (world_with 1%positive df_abc) (skipn 1 df_abc)))
         (importance_chart (skipn 1 df_abc)
            (mkSeries "A" int64 [Some (SInt 1); Some (SInt 2)]) labels widths) 1,
       inr tt)
    ∧ Sorted Qle widths.
Proof.
  destruct (@feature_importance_pipeline example_backend (world_with 1%positive df_abc)
              (PostprocessVisualizer.mk 1%positive) df_abc "A"
              (mkSeries "A" int64 [Some (SInt 1); Some (SInt 2)])
              [(1 # 2)%Q; (1 # 2)%Q] 1%N eq_refl eq_refl eq_refl eq_refl)
    as (labels & widths & Hrun & Hsorted & _).
  exists labels, widths. split; [exact Hrun | exact Hsorted].
Defined.

Lemma dataset_never_mutated_witness :
  heap (fst (@PostprocessVisualizer.plot_feature_importance example_backend
               (PostprocessVisualizer.__init__ 1%positive) "A"
               (world_with 1%positive df_abc))) !! 1%positive
  = Some df_abc.
Proof.
  apply (@dataset_never_mutated example_backend (world_with 1%positive df_abc)
           1%positive df_abc "A" "C" "A" eq_refl).
Defined.

(** * Further properties of the eight operations *)

(** ** The cells and labels of the count table *)

Lemma size_at_bump (k k' : scalar * scalar) (s : SizeSeries) :
  default 0 (size_at (bump k s) k')
  = (if decide (k = k') then 1 else 0) + default 0 (size_at s k').
Proof.
  induction s as [|[k0 n] s IH].
  - simpl. rewrite size_at_cons. by case_decide.
  - simpl. destruct (decide (k0 = k)) as [->|Hne].
    + rewrite !size_at_cons. case_decide; lia.
    + rewrite !size_at_cons, IH.
      destruct (decide (k0 = k')) as [->|]; [|done].
      rewrite decide_False by done. lia.
Qed.

Lemma size_at_count (ks : list (scalar * scalar)) (s : SizeSeries) (k : scalar * scalar) :
  default 0 (size_at (foldl (λ s k, bump k s) s ks) k)
  = key_count k ks + default 0 (size_at s k).
Proof.
  unfold key_count. revert s. induction ks as [|k0 ks IH]; intros s; simpl; [done|].
  rewrite IH, size_at_bump, filter_cons. case_decide; simpl; lia.
Qed.

Lemma count_rows_keys (ks : list (scalar * scalar)) (s : SizeSeries) (k : scalar * scalar) :
  k ∈ (fst <$> foldl (λ s k, bump k s) s ks) ↔ k ∈ ks ∨ k ∈ (fst <$> s).
Proof.
  revert s. induction ks as [|k0 ks IH]; intros s; simpl.
  - rewrite elem_of_nil. tauto.
  - rewrite IH, bump_keys, elem_of_cons. tauto.
Qed.

Lemma key_count_zero (k : scalar * scalar) (ks : list (scalar * scalar)) :
  key_count k ks = 0 ↔ k ∉ ks.
Proof.
  unfold key_count. induction ks as [|k0 ks IH].
  - split; [intros _; apply not_elem_of_nil | done].
  - rewrite filter_cons, not_elem_of_cons. case_decide; simpl.
    + split; [lia | intros [Hne _]; by subst].
    + rewrite IH. split; [intros ?; split; [by intros ->|done] | tauto].
Qed.

Lemma size_at_present (s : SizeSeries) (k : scalar * scalar) :
  k ∈ (fst <$> s) → is_Some (size_at s k).
Proof.
  intros Hk. apply list_elem_of_fmap in Hk as (e & -> & He).
  unfold size_at.
  destruct (list_find_elem_of (λ e', fst e' = fst e) s e He eq_refl) as [[i e'] E].
  rewrite E. by eexists.
Qed.

Lemma size_at_groups (ks : list (scalar * scalar)) (k : scalar * scalar) :
  size_at (foldl (λ s k, bump k s) [] ks) k = count_cell (key_count k ks).
Proof.
  pose proof (size_at_count ks [] k) as Hc.
  change (default 0 (size_at [] k)) with 0 in Hc. rewrite Nat.add_0_r in Hc.
  destruct (decide (k ∈ ks)) as [Hin|Hout].
  - destruct (size_at_present (foldl (λ s k, bump k s) [] ks) k) as [n Hn].
    { apply count_rows_keys. by left. }
    rewrite Hn in Hc |- *. simpl in Hc. subst n.
    destruct (key_count k ks) eqn:E; [|done].
    by apply key_count_zero in E.
  - rewrite size_at_absent.
    + apply key_count_zero in Hout. by rewrite Hout.
    + rewrite count_rows_keys, elem_of_nil. tauto.
Qed.

Lemma unstack_cell_at (s : SizeSeries) (i j : nat) (r c : scalar) :
  row_labels (unstack s) !! i = Some r →
  col_labels (unstack s) !! j = Some c →
  cell_at (unstack s) i j = Some (size_at s (r, c)).
Proof.
  unfold cell_at. simpl. intros Hr Hc.
  rewrite list_lookup_fmap, Hr. simpl. by rewrite list_lookup_fmap, Hc.
Qed.

(** Each cell of the table that [plot_channel_category_counts] plots
    holds the number of rows of the frame whose two keys are the labels
    of the cell's row and column, and is NaN when there is no such
    row. *)
Theorem count_table_cells (df : DataFrame) (a b : string) (ca cb : Series) :
  getitem df a = inr ca → getitem df b = inr cb →
  ∃ s, groupby_size df a b = inr s
     ∧ ∀ i j r c,
         row_labels (unstack s) !! i = Some r →
         col_labels (unstack s) !! j = Some c →
         cell_at (unstack s) i j
         = Some (count_cell (key_count (r, c) (group_keys ca cb))).
Proof.
  intros Ha Hb. unfold groupby_size. rewrite Ha, Hb.
  eexists. split; [done|]. intros i j r c Hr Hc.
  rewrite (unstack_cell_at _ i j r c) by done. by rewrite size_at_groups.
Qed.

Lemma count_table_cells_witness :
  ∃ s, groupby_size df_missing_key "channel_type" "category" = inr s
     ∧ cell_at (unstack s) 0 0 = Some (Some 1).
Proof.
  destruct (count_table_cells df_missing_key "channel_type" "category"
              (mkSeries "channel_type" object_ [Some (SStr "Music"); Some (SStr "Games")])
              (mkSeries "category" object_ [Some (SStr "Entertainment"); None])
              eq_refl eq_refl) as (s & Es & Hcells).
  exists s. split; [exact Es|].
  assert (s = [((SStr "Music", SStr "Entertainment"), 1)]) as ->
    by (vm_compute in Es; congruence).
  exact (Hcells 0 0 (SStr "Music") (SStr "Entertainment") eq_refl eq_refl).
Defined.

(** The table has one row per distinct first key and one column per
    distinct second key of the rows that take part in the grouping, and
    no others. *)
Theorem count_table_labels (df : DataFrame) (a b : string) (ca cb : Series) :
  getitem df a = inr ca → getitem df b = inr cb →
  ∃ s, groupby_size df a b = inr s
     ∧ NoDup (row_labels (unstack s))
     ∧ NoDup (col_labels (unstack s))
     ∧ (∀ r, r ∈ row_labels (unstack s) ↔ ∃ c, (r, c) ∈ group_keys ca cb)
     ∧ (∀ c, c ∈ col_labels (unstack s) ↔ ∃ r, (r, c) ∈ group_keys ca cb).
Proof.
  intros Ha Hb. unfold groupby_size. rewrite Ha, Hb.
  eexists. split; [done|]. simpl.
  split; [apply NoDup_remove_dups|]. split; [apply NoDup_remove_dups|].
  split.
  - intros r. rewrite elem_of_remove_dups, list_elem_of_fmap. split.
    + intros ([[r' c] n] & -> & He). exists c. simpl.
      assert ((r', c) ∈ (fst <$> foldl (λ s k, bump k s) [] (group_keys ca cb))) as Hk
        by (apply list_elem_of_fmap; by exists (r', c, n)).
      apply count_rows_keys in Hk as [?|Hk]; [done | by apply elem_of_nil in Hk].
    + intros [c Hk].
      assert ((r, c) ∈ (fst <$> foldl (λ s k, bump k s) [] (group_keys ca cb))) as Hin
        by (apply count_rows_keys; by left).
      apply list_elem_of_fmap in Hin as (e & He1 & He2).
      exists e. split; [|done]. simpl. by rewrite <- He1.
  - intros c. rewrite elem_of_remove_dups, list_elem_of_fmap. split.
    + intros ([[r c'] n] & -> & He). exists r. simpl.
      assert ((r, c') ∈ (fst <$> foldl (λ s k, bump k s) [] (group_keys ca cb))) as Hk
        by (apply list_elem_of_fmap; by exists (r, c', n)).
      apply count_rows_keys in Hk as [?|Hk]; [done | by apply elem_of_nil in Hk].
    + intros [r Hk].
      assert ((r, c) ∈ (fst <$> foldl (λ s k, bump k s) [] (group_keys ca cb))) as Hin
        by (apply count_rows_keys; by left).
      apply list_elem_of_fmap in Hin as (e & He1 & He2).
      exists e. split; [|done]. simpl. by rewrite <- He1.
Qed.

Lemma count_table_labels_witness :
  ∃ s, groupby_size df_missing_key "channel_type" "category" = inr s
     ∧ NoDup (row_labels (unstack s)).
Proof.
  destruct (count_table_labels df_missing_key "channel_type" "category"
              (mkSeries "channel_type" object_ [Some (SStr "Music"); Some (SStr "Games")])
              (mkSeries "category" object_ [Some (SStr "Entertainment"); None])
              eq_refl eq_refl) as (s & Es & Hrows & _).
  exists s. split; [exact Es | exact Hrows].
Defined.

(** ** When the two-way grouping view fails *)






(** ** When the feature importance view fails *)

(** With a target that is not a column, [plot_feature_importance] raises
    the [KeyError] of [drop] at once: no frame is created, no forest is
    fitted, nothing is drawn. *)
Theorem feature_importance_absent_target `{Backend}
    (w : world) (self : PostprocessVisualizer.t) (df : DataFrame) (target : string) :
  heap w !! PostprocessVisualizer.data self = Some df →
  target ∉ columns df →
  PostprocessVisualizer.plot_feature_importance self target w
  = (w, inl (KeyError target)).
Proof.
  intros Hdf Ht. unfold PostprocessVisualizer.plot_feature_importance.
  unfold bind at 1. unfold drop. unfold bind at 1. unfold deref at 1.
  rewrite (lookup_total_correct _ _ _ Hdf). by rewrite decide_False by done.
Qed.

Lemma feature_importance_absent_target_witness :
  @PostprocessVisualizer.plot_feature_importance example_backend
    (PostprocessVisualizer.mk 1%positive) "views" (world_with 1%positive df_abc)
  = (world_with 1%positive df_abc, inl (KeyError "views")).
Proof.
  apply (@feature_importance_absent_target example_backend (world_with 1%positive df_abc)
           (PostprocessVisualizer.mk 1%positive) df_abc "views" eq_refl).
  intros Hin. apply list_elem_of_In in Hin. simpl in Hin.
  repeat (destruct Hin as [Hin|Hin]; [discriminate Hin|]). exact Hin.
Defined.

(** When the forest rejects the data, [plot_feature_importance] passes
    that error on to the caller; by then the feature matrix has been
    created and the fit attempted, but no figure has been opened and
    nothing is drawn. *)
Theorem feature_importance_fit_error `{Backend}
    (w : world) (self : PostprocessVisualizer.t) (df : DataFrame)
    (target : string) (y : Series) (e : exn) (g : N) :
  heap w !! PostprocessVisualizer.data self = Some df →
  getitem df target = inr y →
  let X := filter (λ c, name c ≠ target) df in
  forest_importances 100 X y (rng w) = (inl e, g) →
  PostprocessVisualizer.plot_feature_importance self target w
  = (mkWorld (heap (allocated w X)) (trace w ++ [rf_fit 100 X y]) g, inl e).
Proof.
  intros Hdf Hy X Hfit.
  assert (target ∈ columns df) as Ht.
  { destruct (decide (target ∈ columns df)) as [|Hn]; [done|].
    by rewrite (getitem_absent df target Hn) in Hy. }
  unfold PostprocessVisualizer.plot_feature_importance.
  unfold bind at 1. unfold drop. unfold bind at 1. unfold deref at 1.
  rewrite (lookup_total_correct _ _ _ Hdf).
  rewrite decide_True by done. unfold alloc. fold X. fold (allocated w X).
  unfold bind at 1. unfold deref at 1.
  replace (heap (allocated w X) !!! fresh (dom (heap w))) with X
    by (simpl; by rewrite lookup_total_insert_eq).
  unfold bind at 1. unfold deref at 1.
  replace (heap (allocated w X) !!! PostprocessVisualizer.data self) with df.
  2:{ simpl. rewrite lookup_total_insert_ne by (by eapply fresh_not_self).
      symmetry. by apply lookup_total_correct. }
  unfold bind at 1. unfold lift at 1. rewrite Hy.
  unfold bind at 1. unfold fit_importances.
  replace (rng (allocated w X)) with (rng w) by done. by rewrite Hfit.
Qed.

Lemma feature_importance_fit_error_witness :
  snd (@PostprocessVisualizer.plot_feature_importance failing_backend
         (PostprocessVisualizer.mk 1%positive) "A" (world_with 1%positive df_abc))
  = inl (ValueError "could not convert string to float").
Proof.
  rewrite (@feature_importance_fit_error failing_backend (world_with 1%positive df_abc)
             (PostprocessVisualizer.mk 1%positive) df_abc "A"
             (mkSeries "A" int64 [Some (SInt 1); Some (SInt 2)])
             (ValueError "could not convert string to float") 1%N
             eq_refl eq_refl eq_refl).
  reflexivity.
Defined.

(** ** How many scatter charts are drawn *)






(** ** Which operations fit a forest *)

Lemma fits_snoc (tr : list event) (e : event) :
  fits (tr ++ [e]) = fits tr + (if is_fit e then 1 else 0).
Proof. rewrite fits_app. f_equal. by destruct e. Qed.

Lemma no_fit_ret {A} (x : A) : no_fit (ret x).
Proof. intros w. done. Qed.

Lemma no_fit_raise {A} (e : exn) : no_fit (@raise A e).
Proof. intros w. done. Qed.

Lemma no_fit_lift {A} (r : result A) : no_fit (lift r).
Proof. intros w. done. Qed.

Lemma no_fit_deref (l : loc) : no_fit (deref l).
Proof. intros w. done. Qed.

Lemma no_fit_alloc (df : DataFrame) : no_fit (alloc df).
Proof. intros w. done. Qed.

Lemma no_fit_emit (e : event) : is_fit e = false → no_fit (emit e).
Proof. intros He w. simpl. rewrite fits_snoc, He. split; [done | lia]. Qed.

Lemma no_fit_bind {A B} (m : M A) (k : A → M B) :
  no_fit m → (∀ x, no_fit (k x)) → no_fit (bind m k).
Proof.
  intros Hm Hk w. unfold bind. destruct (Hm w) as [Hr Hf].
  destruct (m w) as [w' [e|x]]; simpl in *; [done|].
  destruct (Hk x w') as [Hr' Hf']. split; congruence.
Qed.

Lemma no_fit_for_each {A} (l : list A) (body : A → M unit) :
  (∀ x, no_fit (body x)) → no_fit (for_each l body).
Proof.
  intros Hbody. induction l as [|x l IH]; simpl.
  - apply no_fit_ret.
  - apply no_fit_bind; [apply Hbody | intros _; apply IH].
Qed.

Lemma no_fit_select_dtypes (include : list dtype) (l : loc) :
  no_fit (select_dtypes include l).
Proof. apply no_fit_bind; [apply no_fit_deref | intros df; apply no_fit_alloc]. Qed.

Lemma no_fit_plot_bar (t : CountTable) (wd ht : nat) : no_fit (plot_bar t wd ht).
Proof.
  unfold plot_bar. destruct (row_labels t), (col_labels t);
    first [apply no_fit_raise | by apply no_fit_emit].
Qed.

Lemma no_fit_countplot (df : DataFrame) (x : string) : no_fit (countplot df x).
Proof.
  unfold countplot. case_decide; [by apply no_fit_emit | apply no_fit_raise].
Qed.

Lemma no_fit_scatterplot (df : DataFrame) (x y : string) : no_fit (scatterplot df x y).
Proof.
  unfold scatterplot. repeat case_decide;
    first [by apply no_fit_emit | apply no_fit_raise].
Qed.

Lemma no_fit_drop (k : string) (l : loc) : no_fit (drop k l).
Proof.
  apply no_fit_bind; [apply no_fit_deref | intros df].
  case_decide; [apply no_fit_alloc | apply no_fit_raise].
Qed.

Lemma no_fit_at_most {A} (m : M A) : no_fit m → fits_at_most 0 m.
Proof. intros Hm w. destruct (Hm w) as [_ ->]. lia. Qed.

Lemma fits_at_most_bind {A B} (n k : nat) (m : M A) (f : A → M B) :
  fits_at_most n m → (∀ x, fits_at_most k (f x)) → fits_at_most (n + k) (bind m f).
Proof.
  intros Hm Hf w. unfold bind. specialize (Hm w).
  destruct (m w) as [w' [e|x]]; simpl in *; [lia|].
  specialize (Hf x w'). lia.
Qed.

Lemma fits_at_most_fit_importances `{Backend} (n : nat) (X : DataFrame) (y : Series) :
  fits_at_most 1 (fit_importances n X y).
Proof.
  intros w. unfold fit_importances.
  destruct (forest_importances n X y (rng w)) as [r g]. simpl.
  rewrite fits_snoc. simpl. lia.
Qed.

Ltac quiet :=
  repeat first
    [ apply no_fit_emit; reflexivity | apply no_fit_deref | apply no_fit_lift
    | apply no_fit_ret | apply no_fit_select_dtypes
    | apply no_fit_plot_bar | apply no_fit_countplot | apply no_fit_scatterplot
    | apply no_fit_for_each; intros ?
    | apply no_fit_bind; [|intros ?] ].

(** Seven of the eight operations never fit a forest and never touch
    the random state, whatever frame and arguments they are given;
    [plot_feature_importance] fits at most one forest per call. *)
Theorem only_feature_importance_fits `{Backend}
    (pre : PreprocessVisualizer.t) (post : PostprocessVisualizer.t)
    (a b target : string) :
  no_fit (PreprocessVisualizer.plot_numeric_distribution pre)
  ∧ no_fit (PreprocessVisualizer.plot_categorical_distribution pre)
  ∧ no_fit (PreprocessVisualizer.plot_channel_category_counts pre a b)
  ∧ no_fit (PreprocessVisualizer.plot_heatmap pre)
  ∧ no_fit (PostprocessVisualizer.plot_heatmap post)
  ∧ no_fit (PostprocessVisualizer.plot_correlation_analysis post target)
  ∧ no_fit (PostprocessVisualizer.plot_scatterplots post target)
  ∧ ∀ w, fits (trace (fst (PostprocessVisualizer.plot_feature_importance post target w)))
         ≤ S (fits (trace w)).
Proof.
  split; [unfold PreprocessVisualizer.plot_numeric_distribution; quiet|].
  split; [unfold PreprocessVisualizer.plot_categorical_distribution; quiet|].
  split; [unfold PreprocessVisualizer.plot_channel_category_counts; quiet|].
  split; [unfold PreprocessVisualizer.plot_heatmap; quiet|].
  split; [unfold PostprocessVisualizer.plot_heatmap; quiet|].
  split; [unfold PostprocessVisualizer.plot_correlation_analysis; quiet|].
  split; [unfold PostprocessVisualizer.plot_scatterplots; quiet|].
  intros w. rewrite <- Nat.add_1_r.
  apply (fits_at_most_bind 0 1); [apply no_fit_at_most, no_fit_drop | intros xl].
  apply (fits_at_most_bind 0 1); [apply no_fit_at_most, no_fit_deref | intros X].
  apply (fits_at_most_bind 0 1); [apply no_fit_at_most, no_fit_deref | intros df].
  apply (fits_at_most_bind 0 1); [apply no_fit_at_most, no_fit_lift | intros y].
  apply (fits_at_most_bind 1 0); [apply fits_at_most_fit_importances | intros imp].
  apply no_fit_at_most. quiet.
Qed.

(** ** Calls in sequence *)



(** ** Witnesses for the distribution views *)


